(** * Admin panel authentication client and route guard

    A shallow embedding of [src/services/authService.ts] (class
    [AuthService]) and of the [ProtectedRoute] component, together with the
    properties of their specification.

    The browser is modelled as explicit state: [localStorage] is a finite
    map, [window.location.href] a string, and every externally visible
    effect (a [fetch], a [removeItem], an assignment to the location, a
    console line) is appended to a chronological trace.  An [async] method
    is a state transformer which completes normally or throws; the server is
    an oracle giving, for a request, either a rejection of [fetch] or a
    response. *)

From Stdlib Require Import ZArith Bool Lia.
From stdpp Require Import base strings gmap list pretty.

Local Open Scope Z_scope.
Local Open Scope string_scope.

(** ** The JavaScript values the code handles *)

Module Js.

(** Classes of the error objects that reach the [catch] blocks. *)
Inductive ErrorClass : Type :=
  | Error
  | TypeError
  | SyntaxError
  | DOMException.

#[global] Instance ErrorClass_eq_dec : EqDecision ErrorClass.
Proof. solve_decision. Defined.

(** A thrown error object: its class and its [message]. *)
Record JsError : Type := mkJsError {
  err_class : ErrorClass;
  err_message : string
}.

#[global] Instance JsError_eq_dec : EqDecision JsError.
Proof. solve_decision. Defined.

(** [new Error(msg)]. *)
Definition new_Error (msg : string) : JsError := mkJsError Error msg.

(** [e instanceof TypeError]. *)
Definition instanceof_TypeError (e : JsError) : bool :=
  bool_decide (err_class e = TypeError).

(** [hay.includes(needle)]: the needle occurs at some position. The needles
    of this program are ASCII, for which a search over UTF-8 bytes and one
    over UTF-16 units agree. *)
Fixpoint includes (needle hay : string) : bool :=
  String.prefix needle hay ||
  match hay with
  | EmptyString => false
  | String _ rest => includes needle rest
  end.

(** The result of [JSON.parse]. A number is carried as the text JavaScript
    prints it with (JSON has neither NaN nor an infinity, and a zero of
    either sign prints as 0); an object is the list of its own
    properties. *)
#[warnings="-register-all"] Inductive json : Type :=
  | JNull
  | JBool (b : bool)
  | JNum (text : string)
  | JStr (s : string)
  | JArr (items : list json)
  | JObj (props : list (string * json)).

(** ToBoolean, as [||] applies it. *)
Definition truthy (v : json) : bool :=
  match v with
  | JNull => false
  | JBool b => b
  | JNum text => negb (String.eqb text "0")
  | JStr s => negb (String.eqb s EmptyString)
  | JArr _ | JObj _ => true
  end.

Fixpoint assoc (k : string) (props : list (string * json)) : option json :=
  match props with
  | [] => None
  | (k', v) :: rest => if String.eqb k k' then Some v else assoc k rest
  end.

(** The TypeError of a conversion to a primitive which finds no callable
    [toString] or [valueOf] giving one (its text is the engine's; V8's is
    used). *)
Definition cannot_convert : JsError :=
  mkJsError TypeError "Cannot convert object to primitive value".

(** ToString, as [new Error(v)] applies it to its argument. A parsed object
    prints through [Object.prototype.toString], unless it has a [toString]
    property of its own: that one is no function, and [valueOf] gives the
    object back, so the conversion throws. An array prints through [join],
    which takes [null] for the empty text and converts the other elements
    in order. *)
Fixpoint ToString (v : json) : string + JsError :=
  match v with
  | JNull => inl "null"
  | JBool true => inl "true"
  | JBool false => inl "false"
  | JNum text => inl text
  | JStr s => inl s
  | JArr items =>
      (fix join (l : list json) : string + JsError :=
         match l with
         | [] => inl EmptyString
         | x :: rest =>
             match match x with
                   | JNull => inl EmptyString
                   | _ => ToString x
                   end with
             | inr e => inr e
             | inl s =>
                 match rest with
                 | [] => inl s
                 | _ =>
                     match join rest with
                     | inr e => inr e
                     | inl t => inl (s ++ "," ++ t)
                     end
                 end
             end
         end) items
  | JObj props =>
      match assoc "toString" props with
      | Some _ => inr cannot_convert
      | None => inl "[object Object]"
      end
  end.

(** [v.message] on a parsed value: [inr] is the TypeError of a property
    read on [null] (its text is the engine's; V8's is used); [inl None] is
    [undefined]. *)
Definition get_message (v : json) : option json + JsError :=
  match v with
  | JNull =>
      inr (mkJsError TypeError
             "Cannot read properties of null (reading 'message')")
  | JObj props => inl (assoc "message" props)
  | _ => inl None
  end.

(** [`${token}`] for a [string | null] read from storage. *)
Definition template_of_nullable (t : option string) : string :=
  match t with
  | Some s => s
  | None => "null"
  end.

(** ** Requests and responses *)

Record Request : Type := mkRequest {
  req_url : string;
  req_method : option string;
  req_headers : list (string * string);
  (** the value handed to [JSON.stringify], before serialisation *)
  req_body : option json;
  (** the [timeout] member the health probe adds to its init object *)
  req_timeout : option Z
}.

(** What [response.json()] settles to. *)
Inductive Body : Type :=
  | BodyJson (v : json)
  | BodyUnparsable (e : JsError).

Record Response : Type := mkResponse {
  status : Z;
  body : Body
}.

(** [response.ok], which the Fetch standard defines from the status. *)
Definition ok (r : Response) : bool :=
  Z.leb 200 (status r) && Z.leb (status r) 299.

(** What [fetch] settles to: no response at all, or a response. *)
Inductive FetchOutcome : Type :=
  | Rejects (e : JsError)
  | Resolves (r : Response).

(** ** The browser state *)

Inductive ConsoleLevel : Type := LogLevel | ErrorLevel.

Inductive ConsoleArg : Type :=
  | CStr (s : string)
  | CNum (n : Z)
  | CErr (e : JsError).

Inductive Event : Type :=
  | EvFetch (req : Request)
  | EvRemoveItem (key : string)
  | EvSetHref (href : string)
  | EvConsole (lvl : ConsoleLevel) (args : list ConsoleArg).

Record World : Type := mkWorld {
  localStorage : gmap string string;
  location_href : string;
  server : Request -> FetchOutcome;
  trace : list Event
}.

Definition emit (ev : Event) (w : World) : World :=
  mkWorld (localStorage w) (location_href w) (server w) (trace w ++ [ev]).

(** ** Completions and the method monad *)

Inductive Completion (A : Type) : Type :=
  | Normal (a : A)
  | Throw (e : JsError).
Arguments Normal {A} a.
Arguments Throw {A} e.

Definition JS (A : Type) : Type := World -> Completion A * World.

Definition ret {A} (a : A) : JS A := fun w => (Normal a, w).

Definition throw {A} (e : JsError) : JS A := fun w => (Throw e, w).

Definition bind {A B} (m : JS A) (k : A -> JS B) : JS B :=
  fun w =>
    match m w with
    | (Normal a, w') => k a w'
    | (Throw e, w') => (Throw e, w')
    end.

(** [try { m } catch (error) { h error }]. *)
Definition try_catch {A} (m : JS A) (h : JsError -> JS A) : JS A :=
  fun w =>
    match m w with
    | (Normal a, w') => (Normal a, w')
    | (Throw e, w') => h e w'
    end.

Notation "'let*' x ':=' m 'in' k" := (bind m (fun x => k))
  (at level 10, x name, m at level 100, k at level 200,
   format "'[v' 'let*'  x  ':='  m  'in' '/' k ']'").

Notation "m ';;' k" := (bind m (fun _ => k))
  (at level 100, k at level 200, right associativity, only parsing).

(** ** Browser primitives *)

Definition localStorage_getItem (key : string) : JS (option string) :=
  fun w => (Normal (localStorage w !! key), w).

Definition localStorage_removeItem (key : string) : JS unit :=
  fun w =>
    (Normal tt,
     emit (EvRemoveItem key)
       (mkWorld (delete key (localStorage w)) (location_href w) (server w)
          (trace w))).

Definition set_location_href (href : string) : JS unit :=
  fun w =>
    (Normal tt,
     emit (EvSetHref href)
       (mkWorld (localStorage w) href (server w) (trace w))).

Definition console_log (args : list ConsoleArg) : JS unit :=
  fun w => (Normal tt, emit (EvConsole LogLevel args) w).

Definition console_error (args : list ConsoleArg) : JS unit :=
  fun w => (Normal tt, emit (EvConsole ErrorLevel args) w).

Definition fetch (req : Request) : JS Response :=
  fun w =>
    match server w req with
    | Rejects e => (Throw e, emit (EvFetch req) w)
    | Resolves r => (Normal r, emit (EvFetch req) w)
    end.

Definition response_json (r : Response) : JS json :=
  match body r with
  | BodyJson v => ret v
  | BodyUnparsable e => throw e
  end.

End Js.

(** ** The authentication client, [class AuthService] *)

Module AuthService.
Import Js.

Record AuthService : Type := mkAuthService {
  baseURL : string
}.

(** The field initialiser
    [baseURL = import.meta.env.VITE_API_URL || '/Admin/api'], run once by
    the constructor. *)
Definition new_AuthService (VITE_API_URL : option string) : AuthService :=
  mkAuthService
    match VITE_API_URL with
    | Some u => if String.eqb u EmptyString then "/Admin/api" else u
    | None => "/Admin/api"
    end.

Definition getErrorMessageByStatus (status : Z) : string :=
  if Z.eqb status 400 then "Dados inválidos enviados para o servidor"
  else if Z.eqb status 401 then "Credenciais inválidas ou sessão expirada"
  else if Z.eqb status 403 then "Acesso negado"
  else if Z.eqb status 404 then
    "Serviço não encontrado. Verifique se o servidor está rodando"
  else if Z.eqb status 500 then "Erro interno do servidor"
  else if Z.eqb status 502 then "Servidor indisponível"
  else if Z.eqb status 503 then "Serviço temporariamente indisponível"
  else "Erro de comunicação com o servidor".

Definition clearAuthData : JS unit :=
  localStorage_removeItem "admin_token".

(** The local [error] of [handleApiResponse]: the parsed body, or the object
    literal the [catch] builds. *)
Inductive ApiError : Type :=
  | Parsed (v : json)
  | Synthesized (message : string) (status : Z).

(** [error.message || 'Erro de comunicação com o servidor'], then the
    message [new Error] gives its argument. *)
Definition resolved_message (error : ApiError) : string + JsError :=
  match error with
  | Synthesized message _ =>
      inl (if String.eqb message EmptyString
           then "Erro de comunicação com o servidor"
           else message)
  | Parsed v =>
      match get_message v with
      | inr e => inr e
      | inl (Some m) =>
          if truthy m then
            match ToString m with
            | inl msg => inl msg
            | inr e => inr e
            end
          else inl "Erro de comunicação com o servidor"
      | inl None => inl "Erro de comunicação com o servidor"
      end
  end.

Definition handleApiResponse (response : Response) : JS Response :=
  if negb (ok response) then
    let* error :=
      try_catch
        (let* v := response_json response in ret (Parsed v))
        (fun _ =>
           ret (Synthesized (getErrorMessageByStatus (status response))
                  (status response))) in
    (if Z.eqb (status response) 401 || Z.eqb (status response) 403 then
       clearAuthData ;; set_location_href "/Admin/login"
     else ret tt) ;;
    match resolved_message error with
    | inl msg => throw (new_Error msg)
    | inr e => throw e
    end
  else ret response.

Definition login (this : AuthService) (email senha : string) : JS json :=
  try_catch
    (console_log [CStr "Tentando fazer login para:"; CStr email] ;;
     console_log [CStr "URL da API:"; CStr (baseURL this ++ "/auth/login")] ;;
     let* response :=
       fetch (mkRequest (baseURL this ++ "/auth/login") (Some "POST")
                [("Content-Type", "application/json")]
                (Some (JObj [("email", JStr email); ("senha", JStr senha)]))
                None) in
     console_log [CStr "Status da resposta:"; CNum (status response)] ;;
     handleApiResponse response ;;
     response_json response)
    (fun error =>
       console_error [CStr "Erro no authService.login:"; CErr error] ;;
       if instanceof_TypeError error && includes "fetch" (err_message error)
       then
         throw (new_Error "Não foi possível conectar ao servidor. Verifique sua conexão e se o servidor está rodando.")
       else throw error).

Definition validateToken (this : AuthService) (token : string) : JS json :=
  try_catch
    (let* response :=
       fetch (mkRequest (baseURL this ++ "/auth/validate") (Some "GET")
                [("Authorization", "Bearer " ++ token)] None None) in
     handleApiResponse response ;;
     response_json response)
    (fun error => clearAuthData ;; throw error).

Definition logout (this : AuthService) : JS unit :=
  let* token := localStorage_getItem "admin_token" in
  (match token with
   | Some t =>
       if negb (String.eqb t EmptyString) then
         try_catch
           (fetch (mkRequest (baseURL this ++ "/auth/logout") (Some "POST")
                     [("Authorization", "Bearer " ++ t)] None None) ;;
            ret tt)
           (fun error =>
              console_error [CStr "Erro ao fazer logout:"; CErr error])
       else ret tt
   | None => ret tt
   end) ;;
  clearAuthData.

(** [profileId] is taken among the integers, which [`${profileId}`] prints
    in decimal. *)
Definition getProfile (this : AuthService) (profileId : Z) : JS json :=
  try_catch
    (let* token := localStorage_getItem "admin_token" in
     let* response :=
       fetch (mkRequest (baseURL this ++ "/profiles/" ++ pretty profileId)
                None
                [("Authorization", "Bearer " ++ template_of_nullable token)]
                None None) in
     handleApiResponse response ;;
     response_json response)
    (fun error => throw error).

Definition checkServerHealth (this : AuthService) : JS bool :=
  try_catch
    (let* response :=
       fetch (mkRequest (baseURL this ++ "/health") (Some "GET") [] None
                (Some 5000)) in
     ret (ok response))
    (fun error =>
       console_error [CStr "Servidor não está respondendo:"; CErr error] ;;
       ret false).

End AuthService.

(** ** The route guard, [ProtectedRoute] *)

Module ProtectedRoute.

(** What [useAuth()] hands the guard. The component also destructures
    [admin], which it never reads. *)
Record AuthContext : Type := mkAuthContext {
  isAuthenticated : bool;
  loading : bool;
  serverError : bool
}.

(** The values the hooks return in one render: the session flags,
    [location.pathname], and the identity of the [addNotification] callback
    (two renders share a number exactly when they got the same function
    object). *)
Record Hooks : Type := mkHooks {
  auth : AuthContext;
  pathname : string;
  addNotification : nat
}.

Record Notification : Type := mkNotification {
  type : string;
  title : string;
  message : string
}.

(** What the component returns; [C] is the type of its [children]. *)
Inductive Element (C : Type) : Type :=
  | LoadingSpinner
  | Navigate (to : string) (replace : bool)
  | Fragment (children : C).
Arguments LoadingSpinner {C}.
Arguments Navigate {C} to replace.
Arguments Fragment {C} children.

(** The dependency array
    [[isAuthenticated, loading, serverError, location.pathname,
      addNotification]]. *)
Definition Deps : Type := (bool * bool * bool * string * nat)%type.

Definition deps_of (h : Hooks) : Deps :=
  (isAuthenticated (auth h), loading (auth h), serverError (auth h),
   pathname h, addNotification h).

(** The body of the effect: the calls of [addNotification] it makes. *)
Definition effect (h : Hooks) : list Notification :=
  if negb (loading (auth h)) && negb (isAuthenticated (auth h))
     && negb (serverError (auth h)) && negb (String.eqb (pathname h) "/login")
  then
    [mkNotification "warning" "Sessão Expirada"
       "Sua sessão expirou. Faça login novamente."]
  else [].

(** React's [useEffect(f, deps)]: [f] runs after the first render, and after
    a later render when some dependency differs from the one of the render
    before. [prev] is the array of the previous render, [None] on mount. *)
Definition useEffect (prev : option Deps) (deps : Deps)
    (f : list Notification) : list Notification :=
  match prev with
  | None => f
  | Some d => if decide (d = deps) then [] else f
  end.

(** The returned element. *)
Definition element {C} (children : C) (h : Hooks) : Element C :=
  if loading (auth h) then LoadingSpinner
  else if serverError (auth h) then Navigate "/login" true
  else if negb (isAuthenticated (auth h)) then Navigate "/login" true
  else Fragment children.

(** One render of the component: the element and the notifications its
    effect emits once the render is committed. *)
Definition ProtectedRoute {C} (children : C) (prev : option Deps) (h : Hooks)
    : Element C * list Notification :=
  (element children h, useEffect prev (deps_of h) (effect h)).

(** The successive renders of one mounted guard. *)
Fixpoint renders {C} (children : C) (prev : option Deps) (hs : list Hooks)
    : list (Element C * list Notification) :=
  match hs with
  | [] => []
  | h :: rest =>
      ProtectedRoute children prev h
        :: renders children (Some (deps_of h)) rest
  end.

(** How many notifications a run of renders fires; the guard of [fired] is
    mounted at its first render. *)
Definition fired_from (prev : option Deps) (hs : list Hooks) : nat :=
  length (concat (map snd (renders tt prev hs))).

Definition fired (hs : list Hooks) : nat := fired_from None hs.

(** The unauthenticated state of the specification. *)
Definition unauthenticated (h : Hooks) : bool :=
  negb (loading (auth h)) && negb (isAuthenticated (auth h))
  && negb (serverError (auth h)).

(** How many renders enter the unauthenticated state: the state holds and
    did not at the render before ([was]); a guard mounted in the state has
    entered it. *)
Fixpoint transitions_from (was : bool) (hs : list Hooks) : nat :=
  match hs with
  | [] => 0
  | h :: rest =>
      (if unauthenticated h && negb was then 1 else 0)
      + transitions_from (unauthenticated h) rest
  end.

Definition transitions (hs : list Hooks) : nat := transitions_from false hs.

(** Every render has the same path and the same callback. *)
Definition stable (p : string) (k : nat) (hs : list Hooks) : Prop :=
  Forall (fun h => pathname h = p /\ addNotification h = k) hs.

(** The previous render, as the effect and the count of transitions remember
    it: none on mount, else a render on the same path with the same
    callback. *)
Definition remembers (p : string) (k : nat) (prev : option Deps) (was : bool)
    : Prop :=
  match prev with
  | None => was = false
  | Some d =>
      exists h0, d = deps_of h0 /\ pathname h0 = p /\ addNotification h0 = k
                 /\ was = unauthenticated h0
  end.

(** A render in the unauthenticated state. *)
Definition signed_out (p : string) (k : nat) : Hooks :=
  mkHooks (mkAuthContext false false false) p k.

(** The object the effect hands to [addNotification]. *)
Definition warning : Notification :=
  mkNotification "warning" "Sessão Expirada"
    "Sua sessão expirou. Faça login novamente.".

(** How many renders come with another path or another callback than the
    render before ([last]; none on mount). *)
Fixpoint changes_from (last : option (string * nat)) (hs : list Hooks) : nat :=
  match hs with
  | [] => 0
  | h :: rest =>
      (match last with
       | None => 0
       | Some pk =>
           if decide (pk = (pathname h, addNotification h)) then 0 else 1
       end)
      + changes_from (Some (pathname h, addNotification h)) rest
  end.

Definition changes (hs : list Hooks) : nat := changes_from None hs.

End ProtectedRoute.

(** ** Vocabulary of the statements about the client *)

Module AuthServiceSpec.
Import Js AuthService.

(** The local [error] of [handleApiResponse] for a failing response. *)
Definition api_error (r : Response) : ApiError :=
  match body r with
  | BodyJson v => Parsed v
  | BodyUnparsable _ =>
      Synthesized (getErrorMessageByStatus (status r)) (status r)
  end.

(** The error a failing response makes [handleApiResponse] throw. *)
Definition thrown (r : Response) : JsError :=
  match resolved_message (api_error r) with
  | inl msg => new_Error msg
  | inr e => e
  end.

Definition session_invalidating (s : Z) : bool :=
  Z.eqb s 401 || Z.eqb s 403.

(** The browser after the token was removed and the page sent to the login
    route, in this order. *)
Definition invalidated (w : World) : World :=
  mkWorld (delete "admin_token" (localStorage w)) "/Admin/login" (server w)
    (trace w ++ [EvRemoveItem "admin_token"; EvSetHref "/Admin/login"]).

(** The browser after [clearAuthData]. *)
Definition cleared (w : World) : World :=
  mkWorld (delete "admin_token" (localStorage w)) (location_href w)
    (server w) (trace w ++ [EvRemoveItem "admin_token"]).

(** The requests of the methods. *)
Definition validate_request (this : AuthService) (token : string) : Request :=
  mkRequest (baseURL this ++ "/auth/validate") (Some "GET")
    [("Authorization", "Bearer " ++ token)] None None.

Definition logout_request (this : AuthService) (token : string) : Request :=
  mkRequest (baseURL this ++ "/auth/logout") (Some "POST")
    [("Authorization", "Bearer " ++ token)] None None.

Definition login_request (this : AuthService) (email senha : string)
    : Request :=
  mkRequest (baseURL this ++ "/auth/login") (Some "POST")
    [("Content-Type", "application/json")]
    (Some (JObj [("email", JStr email); ("senha", JStr senha)])) None.

Definition health_request (this : AuthService) : Request :=
  mkRequest (baseURL this ++ "/health") (Some "GET") [] None (Some 5000).

(** The failure paths of [validateToken]: no response, a failing status, or
    a successful status whose body does not parse. *)
Inductive validate_failure : FetchOutcome -> Prop :=
  | network_error e : validate_failure (Rejects e)
  | http_error r : ok r = false -> validate_failure (Resolves r)
  | unparsable_success r e :
      ok r = true -> body r = BodyUnparsable e ->
      validate_failure (Resolves r).

(** The effects of [logout] that precede the removal of the token. *)
Definition logout_attempt (this : AuthService) (w : World) : list Event :=
  match localStorage w !! "admin_token" with
  | Some t =>
      if String.eqb t EmptyString then []
      else
        EvFetch (logout_request this t)
          :: match server w (logout_request this t) with
             | Rejects e =>
                 [EvConsole ErrorLevel
                    [CStr "Erro ao fazer logout:"; CErr e]]
             | Resolves _ => []
             end
  | None => []
  end.

Definition profile_request (this : AuthService) (profileId : Z)
    (authorization : string) : Request :=
  mkRequest (baseURL this ++ "/profiles/" ++ pretty profileId) None
    [("Authorization", authorization)] None None.

(** The message [login] gives an error it takes for a network failure. *)
Definition connectivity_message : string :=
  "Não foi possível conectar ao servidor. Verifique sua conexão e se o servidor está rodando.".

(** The rejection of [fetch] in WebKit when the server cannot be reached. *)
Definition load_failed : JsError := mkJsError TypeError "Load failed".

(** A browser holding a token, facing a server that always answers [o]. *)
Definition browser (o : FetchOutcome) : World :=
  mkWorld {["admin_token" := "tok"]} "/Admin/dashboard" (fun _ => o) [].

Definition unparsable : Body :=
  BodyUnparsable (mkJsError SyntaxError "Unexpected token < in JSON").

(** The fallback of [error.message || ...]. *)
Definition generic_message : string := "Erro de comunicação com o servidor".

(** The [catch] block of [login], run on the error [e]. *)
Definition login_catch (e : JsError) (w : World) : Completion json * World :=
  (Throw (if instanceof_TypeError e && includes "fetch" (err_message e)
          then new_Error connectivity_message else e),
   emit (EvConsole ErrorLevel [CStr "Erro no authService.login:"; CErr e]) w).

(** The browser when [login] has logged its two lines and sent its
    request. *)
Definition login_sent (this : AuthService) (email senha : string) (w : World)
    : World :=
  emit (EvFetch (login_request this email senha))
    (emit (EvConsole LogLevel
             [CStr "URL da API:"; CStr (baseURL this ++ "/auth/login")])
       (emit (EvConsole LogLevel
                [CStr "Tentando fazer login para:"; CStr email]) w)).

(** The request of [getProfile] in the browser [w]. *)
Definition stored_profile_request (this : AuthService) (profileId : Z)
    (w : World) : Request :=
  profile_request this profileId
    ("Bearer " ++ template_of_nullable (localStorage w !! "admin_token")).

(** The public methods, and the browser a call leaves behind. *)
Inductive Call : Type :=
  | CallLogin (email senha : string)
  | CallValidateToken (token : string)
  | CallLogout
  | CallGetProfile (profileId : Z)
  | CallCheckServerHealth.

Definition after (this : AuthService) (c : Call) (w : World) : World :=
  match c with
  | CallLogin email senha => snd (login this email senha w)
  | CallValidateToken token => snd (validateToken this token w)
  | CallLogout => snd (logout this w)
  | CallGetProfile profileId => snd (getProfile this profileId w)
  | CallCheckServerHealth => snd (checkServerHealth this w)
  end.

(** The requests among the events from position [n] of a trace on. *)
Definition is_fetch (ev : Event) : bool :=
  match ev with
  | EvFetch _ => true
  | _ => false
  end.

Definition requests_since (n : nat) (evs : list Event) : list Event :=
  filter (fun ev => is_fetch ev = true) (drop n evs).

(** The request a call sends in the browser [w], if it sends one. *)
Definition request_of (this : AuthService) (c : Call) (w : World)
    : option Request :=
  match c with
  | CallLogin email senha => Some (login_request this email senha)
  | CallValidateToken token => Some (validate_request this token)
  | CallLogout =>
      match localStorage w !! "admin_token" with
      | Some t =>
          if String.eqb t EmptyString then None
          else Some (logout_request this t)
      | None => None
      end
  | CallGetProfile profileId =>
      Some (stored_profile_request this profileId w)
  | CallCheckServerHealth => Some (health_request this)
  end.

(** The calls which hand their response to [handleApiResponse]. *)
Definition handled (c : Call) : bool :=
  match c with
  | CallLogin _ _ | CallValidateToken _ | CallGetProfile _ => true
  | CallLogout | CallCheckServerHealth => false
  end.

(** ** Properties of the client *)

(** Equations between traces, up to the association of [++]. *)
Ltac trace_eq :=
  unfold cleared, invalidated, emit; cbn; rewrite <- ?app_assoc; cbn;
  reflexivity.

Lemma handleApiResponse_ok r w :
  ok r = true -> handleApiResponse r w = (Normal r, w).
Proof. intros H. unfold handleApiResponse. now rewrite H. Qed.

Lemma handleApiResponse_failing r w :
  ok r = false ->
  handleApiResponse r w
  = (Throw (thrown r),
     if session_invalidating (status r) then invalidated w else w).
Proof.
  intros H. unfold handleApiResponse, thrown, api_error, session_invalidating.
  rewrite H. cbn [negb]. unfold bind, try_catch, response_json.
  destruct (body r) as [v|e0]; cbn [ret throw];
    match goal with
    | |- context [resolved_message ?x] => generalize (resolved_message x)
    end; intros [msg|e];
    destruct (Z.eqb (status r) 401 || Z.eqb (status r) 403); cbn;
    unfold invalidated, emit; cbn; rewrite <- ?app_assoc; reflexivity.
Qed.

Lemma invalidating_not_ok r :
  session_invalidating (status r) = true -> ok r = false.
Proof.
  unfold session_invalidating, ok. intros H.
  apply orb_true_iff in H as [H|H]; apply Z.eqb_eq in H; rewrite H;
    reflexivity.
Qed.

(** C1. A response with status 401 or 403, whatever its body, makes the
    shared handler throw, and at the throw the token has been removed from
    storage and the location set to the login route: these are the two
    effects of the call, in this order. *)
Theorem handleApiResponse_unauthorized r w :
  status r = 401 \/ status r = 403 ->
  exists e w',
    handleApiResponse r w = (Throw e, w')
    /\ localStorage w' = delete "admin_token" (localStorage w)
    /\ localStorage w' !! "admin_token" = None
    /\ location_href w' = "/Admin/login"
    /\ trace w'
       = (trace w
          ++ [EvRemoveItem "admin_token"; EvSetHref "/Admin/login"])%list.
Proof.
  intros H.
  assert (Hs : session_invalidating (status r) = true).
  { unfold session_invalidating. destruct H as [-> | ->]; reflexivity. }
  exists (thrown r), (invalidated w).
  rewrite (handleApiResponse_failing r w (invalidating_not_ok r Hs)), Hs.
  cbn. repeat split. apply lookup_delete_eq.
Qed.

Lemma handleApiResponse_unauthorized_witness :
  let r := mkResponse 401 unparsable in
  let w := browser (Rejects (mkJsError TypeError "unused")) in
  (status r = 401 \/ status r = 403)
  /\ exists e w',
       handleApiResponse r w = (Throw e, w')
       /\ localStorage w' !! "admin_token" = None
       /\ location_href w' = "/Admin/login".
Proof.
  intros r w.
  assert (H : status r = 401 \/ status r = 403) by (left; reflexivity).
  split; [exact H|].
  destruct (handleApiResponse_unauthorized r w H)
    as (e & w' & H1 & _ & H3 & H4 & _).
  exists e, w'. repeat split; assumption.
Defined.

(** C9. A response whose status is neither 401 nor 403, failing or
    successful, leaves the browser as the shared handler found it: the
    stored token, the location and the trace are unchanged. Hence only 401
    and 403 make the handler touch the token storage. *)
Theorem handleApiResponse_frame r w :
  status r <> 401 -> status r <> 403 ->
  snd (handleApiResponse r w) = w
  /\ localStorage (snd (handleApiResponse r w)) = localStorage w.
Proof.
  intros H1 H3.
  assert (Hs : session_invalidating (status r) = false).
  { unfold session_invalidating. apply orb_false_iff.
    split; apply Z.eqb_neq; assumption. }
  destruct (ok r) eqn:Hok.
  - rewrite handleApiResponse_ok by assumption. split; reflexivity.
  - rewrite handleApiResponse_failing by assumption. rewrite Hs.
    split; reflexivity.
Qed.

Lemma handleApiResponse_frame_witness :
  let r := mkResponse 500 (BodyJson (JObj [("message", JStr "boom")])) in
  let w := browser (Resolves r) in
  status r <> 401 /\ status r <> 403
  /\ localStorage (snd (handleApiResponse r w)) !! "admin_token"
     = Some "tok".
Proof.
  intros r w.
  assert (H1 : status r <> 401) by (cbn; lia).
  assert (H3 : status r <> 403) by (cbn; lia).
  split; [exact H1|split; [exact H3|]].
  rewrite (proj2 (handleApiResponse_frame r w H1 H3)). reflexivity.
Defined.

(** C5. When the status is a failing one and the body does not parse, the
    error thrown is an [Error] whose message is the entry of the table for
    that status; the table gives 400, 401, 403, 404, 500, 502 and 503 a
    message of their own and every other status the generic one. *)
Theorem handleApiResponse_unparsable r e w :
  ok r = false -> body r = BodyUnparsable e ->
  fst (handleApiResponse r w)
  = Throw (new_Error (getErrorMessageByStatus (status r)))
  /\ getErrorMessageByStatus 400 = "Dados inválidos enviados para o servidor"
  /\ getErrorMessageByStatus 401 = "Credenciais inválidas ou sessão expirada"
  /\ getErrorMessageByStatus 403 = "Acesso negado"
  /\ getErrorMessageByStatus 404
     = "Serviço não encontrado. Verifique se o servidor está rodando"
  /\ getErrorMessageByStatus 500 = "Erro interno do servidor"
  /\ getErrorMessageByStatus 502 = "Servidor indisponível"
  /\ getErrorMessageByStatus 503 = "Serviço temporariamente indisponível"
  /\ (forall s,
        s <> 400 -> s <> 401 -> s <> 403 -> s <> 404 -> s <> 500 ->
        s <> 502 -> s <> 503 ->
        getErrorMessageByStatus s = "Erro de comunicação com o servidor").
Proof.
  intros Hok Hb. split; [|repeat split].
  - rewrite handleApiResponse_failing by assumption. cbn [fst].
    unfold thrown, api_error. rewrite Hb. cbn [resolved_message].
    destruct (String.eqb (getErrorMessageByStatus (status r)) EmptyString)
      eqn:E;
      [|reflexivity].
    exfalso. revert E. unfold getErrorMessageByStatus.
    repeat match goal with
           | |- context [Z.eqb ?a ?b] => destruct (Z.eqb a b)
           end; discriminate.
  - intros s ? ? ? ? ? ? ?. unfold getErrorMessageByStatus.
    repeat match goal with
           | |- context [Z.eqb s ?b] =>
               destruct (Z.eqb_spec s b); [contradiction|]
           end.
    reflexivity.
Qed.

Lemma handleApiResponse_unparsable_witness :
  let r := mkResponse 502 unparsable in
  let w := browser (Resolves r) in
  ok r = false
  /\ fst (handleApiResponse r w) = Throw (new_Error "Servidor indisponível").
Proof.
  intros r w.
  assert (Hok : ok r = false) by reflexivity.
  split; [exact Hok|].
  exact (proj1 (handleApiResponse_unparsable r _ w Hok eq_refl)).
Defined.

(** C2. The health probe always completes normally, with a boolean which is
    [true] exactly when the server answered the GET of [/health] with a
    status from 200 to 299; a rejected [fetch] and any other status give
    [false]. *)
Theorem checkServerHealth_never_throws this w :
  exists b w',
    checkServerHealth this w = (Normal b, w')
    /\ (b = true <->
        exists r, server w (health_request this) = Resolves r
                  /\ 200 <= status r <= 299)
    /\ (forall e, server w (health_request this) = Rejects e -> b = false)
    /\ localStorage w' = localStorage w.
Proof.
  unfold checkServerHealth, try_catch, bind, fetch.
  fold (health_request this).
  destruct (server w (health_request this)) as [e|r] eqn:E; cbn.
  - exists false. eexists. split; [reflexivity|]. repeat split; try easy.
    intros (r & Hr & _). discriminate.
  - exists (ok r). eexists. split; [reflexivity|]. repeat split; try easy.
    + intros Hok. exists r. split; [reflexivity|].
      unfold ok in Hok. apply andb_true_iff in Hok as [H1 H2].
      apply Z.leb_le in H1, H2. lia.
    + intros (r' & Hr & Hlo & Hhi). injection Hr as <-.
      unfold ok. apply andb_true_iff. split; apply Z.leb_le; assumption.
Qed.

Lemma logout_eq this w :
  logout this w
  = (Normal tt,
     mkWorld (delete "admin_token" (localStorage w)) (location_href w)
       (server w)
       (trace w ++ logout_attempt this w ++ [EvRemoveItem "admin_token"])).
Proof.
  unfold logout, logout_attempt, bind, localStorage_getItem, clearAuthData,
    localStorage_removeItem, try_catch, fetch, console_error, emit.
  cbn. destruct (localStorage w !! "admin_token") as [t|]; [|reflexivity].
  destruct (String.eqb t EmptyString); cbn; [reflexivity|].
  fold (logout_request this t).
  destruct (server w (logout_request this t)); cbn;
    rewrite <- ?app_assoc; reflexivity.
Qed.

Lemma logout_attempt_no_removal this w key :
  EvRemoveItem key ∉ logout_attempt this w.
Proof.
  unfold logout_attempt.
  destruct (localStorage w !! "admin_token") as [t|]; [|apply not_elem_of_nil].
  destruct (String.eqb t EmptyString); [apply not_elem_of_nil|].
  destruct (server w (logout_request this t));
    rewrite ?not_elem_of_cons; repeat split; try discriminate;
    apply not_elem_of_nil.
Qed.

(** C3. [logout] always completes normally with no token in storage. The
    removal is the last effect of the call: when a non-empty token was
    stored, the logout request was issued first (and its rejection, if any,
    logged), and nothing is removed before that. *)
Theorem logout_clears this w :
  exists w' evs,
    logout this w = (Normal tt, w')
    /\ localStorage w' !! "admin_token" = None
    /\ trace w' = (trace w ++ evs ++ [EvRemoveItem "admin_token"])%list
    /\ (forall key, EvRemoveItem key ∉ evs)
    /\ (forall t,
          localStorage w !! "admin_token" = Some t -> t <> EmptyString ->
          exists rest, evs = EvFetch (logout_request this t) :: rest)
    /\ (localStorage w !! "admin_token" = None
        \/ localStorage w !! "admin_token" = Some EmptyString -> evs = []).
Proof.
  eexists. exists (logout_attempt this w).
  split; [apply logout_eq|]. cbn.
  split; [apply lookup_delete_eq|].
  split; [reflexivity|].
  split; [intros key; apply logout_attempt_no_removal|].
  unfold logout_attempt. split.
  - intros t -> Hne. destruct (String.eqb_spec t EmptyString); [contradiction|].
    eexists. reflexivity.
  - intros [-> | ->]; reflexivity.
Qed.

Lemma validateToken_eq this token w :
  validateToken this token w
  = let w1 := emit (EvFetch (validate_request this token)) w in
    match server w (validate_request this token) with
    | Rejects e => (Throw e, cleared w1)
    | Resolves r =>
        if ok r then
          match body r with
          | BodyJson v => (Normal v, w1)
          | BodyUnparsable e => (Throw e, cleared w1)
          end
        else
          (Throw (thrown r),
           cleared (if session_invalidating (status r) then invalidated w1
                    else w1))
    end.
Proof.
  unfold validateToken, try_catch, bind, fetch.
  fold (validate_request this token).
  destruct (server w (validate_request this token)) as [e|r]; [reflexivity|].
  destruct (ok r) eqn:Hok.
  - rewrite handleApiResponse_ok by assumption.
    unfold response_json. destruct (body r); reflexivity.
  - rewrite handleApiResponse_failing by assumption. reflexivity.
Qed.

(** C4. On each failure path of [validateToken] (the request gets no
    response, the response has a failing status, or a successful response
    has a body which does not parse) the call throws, and at the throw the
    token is no longer in storage: its removal is the last effect of the
    call, after the request. *)
Theorem validateToken_failure_clears this token w :
  validate_failure (server w (validate_request this token)) ->
  exists e w' evs,
    validateToken this token w = (Throw e, w')
    /\ localStorage w' !! "admin_token" = None
    /\ trace w'
       = (trace w ++ EvFetch (validate_request this token) :: evs
          ++ [EvRemoveItem "admin_token"])%list.
Proof.
  intros Hfail. rewrite validateToken_eq. cbn zeta.
  inversion Hfail as [e He | r Hok Hr | r e Hok Hb Hr].
  - exists e. eexists. exists [].
    split; [reflexivity|]. split; [apply lookup_delete_eq|]. trace_eq.
  - rewrite Hok. exists (thrown r).
    destruct (session_invalidating (status r)).
    + eexists.
      exists [EvRemoveItem "admin_token"; EvSetHref "/Admin/login"].
      split; [reflexivity|]. split; [apply lookup_delete_eq|]. trace_eq.
    + eexists. exists [].
      split; [reflexivity|]. split; [apply lookup_delete_eq|]. trace_eq.
  - rewrite Hok, Hb. exists e. eexists. exists [].
    split; [reflexivity|]. split; [apply lookup_delete_eq|]. trace_eq.
Qed.

Lemma validateToken_failure_clears_witness :
  let this := new_AuthService None in
  let w := browser (Rejects (mkJsError TypeError "Failed to fetch")) in
  validate_failure (server w (validate_request this "tok"))
  /\ exists e w',
       validateToken this "tok" w = (Throw e, w')
       /\ localStorage w' !! "admin_token" = None.
Proof.
  intros this w.
  assert (H : validate_failure (server w (validate_request this "tok")))
    by apply network_error.
  split; [exact H|].
  destruct (validateToken_failure_clears this "tok" w H)
    as (e & w' & evs & H1 & H2 & _).
  exists e, w'. split; assumption.
Defined.

(** Conversely, [validateToken] throws on these paths only. *)
Lemma validateToken_throw_inv this token w e w' :
  validateToken this token w = (Throw e, w') ->
  validate_failure (server w (validate_request this token)).
Proof.
  rewrite validateToken_eq. cbn zeta.
  destruct (server w (validate_request this token)) as [e0|r].
  - intros _. apply network_error.
  - destruct (ok r) eqn:Hok.
    + destruct (body r) eqn:Hb; [discriminate|].
      intros _. eapply unparsable_success; eassumption.
    + intros _. now apply http_error.
Qed.

(** What [login] throws when [fetch] is rejected: the connectivity message
    when the rejection is a [TypeError] whose message contains the word
    fetch, and the rejection itself otherwise. *)
Lemma login_network_error this email senha w e :
  server w (login_request this email senha) = Rejects e ->
  fst (login this email senha w)
  = Throw (if instanceof_TypeError e && includes "fetch" (err_message e)
           then new_Error connectivity_message else e).
Proof.
  intros H.
  unfold login, try_catch, bind, console_log, console_error, fetch.
  cbn. fold (login_request this email senha).
  rewrite H. cbn.
  destruct (instanceof_TypeError e && includes "fetch" (err_message e));
    reflexivity.
Qed.

(** C6. A login whose [fetch] is rejected the way WebKit rejects it when
    the server cannot be reached ([TypeError: Load failed]) throws that very
    error, with its raw text, and not the connectivity message. *)
Theorem login_network_error_raw :
  let this := new_AuthService None in
  let w := browser (Rejects load_failed) in
  server w (login_request this "admin@example.com" "secret")
  = Rejects load_failed
  /\ fst (login this "admin@example.com" "secret" w) = Throw load_failed
  /\ fst (login this "admin@example.com" "secret" w)
     <> Throw (new_Error connectivity_message).
Proof.
  intros this w. split; [reflexivity|].
  assert (H : fst (login this "admin@example.com" "secret" w)
              = Throw load_failed).
  { rewrite (login_network_error this _ _ w load_failed eq_refl).
    reflexivity. }
  split; [exact H|]. rewrite H. discriminate.
Qed.

(** C10. With no token in storage [getProfile] still issues its request,
    and the request carries the header [Authorization: Bearer null]; the
    request is the first effect of the call. *)
Theorem getProfile_without_token this profileId w :
  localStorage w !! "admin_token" = None ->
  exists c w' evs,
    getProfile this profileId w = (c, w')
    /\ trace w'
       = (trace w
          ++ EvFetch (mkRequest
                        (baseURL this ++ "/profiles/" ++ pretty profileId)
                        None [("Authorization", "Bearer null")] None None)
          :: evs)%list.
Proof.
  intros Hnone.
  unfold getProfile, try_catch, bind, localStorage_getItem, fetch.
  rewrite Hnone. cbn [template_of_nullable].
  change ("Bearer " ++ "null") with "Bearer null".
  fold (profile_request this profileId "Bearer null").
  destruct (server w (profile_request this profileId "Bearer null"))
    as [e|r].
  - eexists. eexists. exists []. split; [reflexivity|]. trace_eq.
  - destruct (ok r) eqn:Hok.
    + rewrite handleApiResponse_ok by assumption.
      unfold response_json.
      destruct (body r); eexists; eexists; exists [];
        (split; [reflexivity|]); trace_eq.
    + rewrite handleApiResponse_failing by assumption.
      destruct (session_invalidating (status r)).
      * eexists. eexists.
        exists [EvRemoveItem "admin_token"; EvSetHref "/Admin/login"].
        split; [reflexivity|]. trace_eq.
      * eexists. eexists. exists []. split; [reflexivity|]. trace_eq.
Qed.

Lemma getProfile_without_token_witness :
  let this := new_AuthService None in
  let w := mkWorld ∅ "/Admin/dashboard"
             (fun _ => Resolves (mkResponse 404 unparsable)) [] in
  localStorage w !! "admin_token" = None
  /\ exists c w' evs,
       getProfile this 7 w = (c, w')
       /\ trace w'
          = EvFetch (mkRequest "/Admin/api/profiles/7" None
                       [("Authorization", "Bearer null")] None None)
            :: evs.
Proof.
  intros this w.
  assert (H : localStorage w !! "admin_token" = None) by reflexivity.
  split; [exact H|].
  destruct (getProfile_without_token this 7 w H) as (c & w' & evs & H1 & H2).
  exists c, w', evs. split; [exact H1|exact H2].
Defined.

End AuthServiceSpec.

(** ** Properties of the route guard *)

Module ProtectedRouteSpec.
Import ProtectedRoute.

Lemma effect_length h :
  length (effect h)
  = if unauthenticated h && negb (String.eqb (pathname h) "/login")
    then 1%nat else 0%nat.
Proof.
  unfold effect, unauthenticated.
  destruct (negb (loading (auth h)) && negb (isAuthenticated (auth h))
            && negb (serverError (auth h))
            && negb (String.eqb (pathname h) "/login")); reflexivity.
Qed.

Lemma unauthenticated_flags h :
  unauthenticated h = true ->
  loading (auth h) = false /\ isAuthenticated (auth h) = false
  /\ serverError (auth h) = false.
Proof.
  unfold unauthenticated.
  destruct (loading (auth h)), (isAuthenticated (auth h)),
    (serverError (auth h)); cbn; intros H; try discriminate; auto.
Qed.

(** C7 as the specification words it fails where a server error meets an
    authenticated session: [loading] is false and [isAuthenticated] true,
    yet the guard redirects to the login route and does not render its
    children. *)
Lemma ProtectedRoute_server_error_first :
  let h := mkHooks (mkAuthContext true false true) "/dashboard" 0 in
  loading (auth h) = false
  /\ isAuthenticated (auth h) = true
  /\ fst (ProtectedRoute tt None h) = Navigate "/login" true
  /\ fst (ProtectedRoute tt None h) <> Fragment tt.
Proof. cbn. repeat split. discriminate. Qed.

(** C7, amended. Whatever the previous render, the path and the callback:
    while loading the guard renders the loading indicator alone and
    notifies nothing; not loading, with a server error it redirects to the
    login route, replacing the history entry, and notifies nothing; not
    loading, with no server error and not authenticated it redirects the
    same way; not loading, with no server error and authenticated it renders
    its children and notifies nothing. *)
Theorem ProtectedRoute_states {C} (children : C) prev p k :
  (forall a s,
     ProtectedRoute children prev (mkHooks (mkAuthContext a true s) p k)
     = (LoadingSpinner, []))
  /\ (forall a,
       ProtectedRoute children prev (mkHooks (mkAuthContext a false true) p k)
       = (Navigate "/login" true, []))
  /\ fst (ProtectedRoute children prev
            (mkHooks (mkAuthContext false false false) p k))
     = Navigate "/login" true
  /\ ProtectedRoute children prev
       (mkHooks (mkAuthContext true false false) p k)
     = (Fragment children, []).
Proof.
  unfold ProtectedRoute, useEffect, effect, element. cbn.
  repeat split.
  - intros a s. destruct prev as [d|]; [|now destruct a, s].
    destruct (decide _); [reflexivity|]. now destruct a, s.
  - intros a. destruct prev as [d|]; [|now destruct a].
    destruct (decide _); [reflexivity|]. now destruct a.
  - destruct prev as [d|]; [|reflexivity]. now destruct (decide _).
Qed.

(** Mounted on a guarded path with the session unauthenticated, the guard
    redirects and fires the warning once. *)
Example ProtectedRoute_signed_out_mount :
  ProtectedRoute tt None (signed_out "/dashboard" 0)
  = (Navigate "/login" true,
     [mkNotification "warning" "Sessão Expirada"
        "Sua sessão expirou. Faça login novamente."]).
Proof. reflexivity. Qed.

Lemma fired_from_cons prev h rest :
  fired_from prev (h :: rest)
  = (length (useEffect prev (deps_of h) (effect h))
     + fired_from (Some (deps_of h)) rest)%nat.
Proof. unfold fired_from. cbn. now rewrite length_app. Qed.

(** What one render notifies: nothing unless the guard has just mounted or
    a dependency changed, and then the warning when the session is
    unauthenticated away from the login route. *)
Lemma useEffect_fires prev h :
  useEffect prev (deps_of h) (effect h) <> [] ->
  unauthenticated h = true /\ pathname h <> "/login"
  /\ prev <> Some (deps_of h).
Proof.
  intros Hne.
  assert (He : effect h <> []).
  { intros E. apply Hne. unfold useEffect. rewrite E.
    destruct prev; [destruct (decide _)|]; reflexivity. }
  assert (Hlen : length (effect h) <> 0%nat) by now destruct (effect h).
  rewrite effect_length in Hlen.
  destruct (unauthenticated h); [|now cbn in Hlen].
  destruct (String.eqb_spec (pathname h) "/login"); [now cbn in Hlen|].
  repeat split; try assumption.
  intros ->. apply Hne. unfold useEffect.
  destruct (decide _); [reflexivity|contradiction].
Qed.

Lemma useEffect_length prev h :
  (length (useEffect prev (deps_of h) (effect h)) <= 1)%nat.
Proof.
  unfold useEffect.
  assert (H : (length (effect h) <= 1)%nat).
  { rewrite effect_length. destruct (_ && _); lia. }
  destruct prev; [destruct (decide _)|]; cbn; lia.
Qed.

Lemma fired_from_le p k hs :
  stable p k hs ->
  forall prev was,
    remembers p k prev was ->
    (fired_from prev hs <= transitions_from was hs)%nat.
Proof.
  induction 1 as [|h rest [Hp Hk] _ IH]; intros prev was Hrem.
  - cbn. lia.
  - rewrite fired_from_cons. cbn [transitions_from].
    assert (Hrest : (fired_from (Some (deps_of h)) rest
                     <= transitions_from (unauthenticated h) rest)%nat).
    { apply IH. exists h. auto. }
    enough ((length (useEffect prev (deps_of h) (effect h))
             <= if unauthenticated h && negb was then 1 else 0)%nat) by lia.
    destruct (useEffect prev (deps_of h) (effect h)) as [|n l] eqn:E;
      [cbn; lia|].
    assert (Hne : useEffect prev (deps_of h) (effect h) <> [])
      by (rewrite E; discriminate).
    pose proof (useEffect_length prev h) as Hlen. rewrite E in Hlen.
    destruct (useEffect_fires prev h Hne) as (Hu & _ & Hprev).
    rewrite Hu. cbn [andb].
    destruct was; [|cbn in *; lia].
    exfalso. destruct prev as [d|]; [|discriminate Hrem].
    destruct Hrem as (h0 & -> & Hp0 & Hk0 & Hu0). apply Hprev. f_equal.
    symmetry in Hu0.
    destruct (unauthenticated_flags h Hu) as (H1 & H2 & H3).
    destruct (unauthenticated_flags h0 Hu0) as (H4 & H5 & H6).
    unfold deps_of. congruence.
Qed.

(** C8. The guard does not keep to one warning per transition into the
    unauthenticated state: mounted on [/dashboard], taken to [/login] and
    then to [/settings] with the session unauthenticated throughout and the
    same callback, it enters that state once and fires the warning twice,
    the second time with no session lost in between. *)
Lemma notification_again_on_navigation :
  let hs := [signed_out "/dashboard" 0; signed_out "/login" 0;
             signed_out "/settings" 0] in
  transitions hs = 1%nat
  /\ fired hs = 2%nat
  /\ ~ (fired hs <= transitions hs)%nat.
Proof. cbn. repeat split. vm_compute. lia. Qed.

(** What does hold of the effect. A render fires the warning at most once,
    and only when the session is unauthenticated (not loading, not
    authenticated, no server error), the path is not the login route, and
    the guard has just mounted or one of the dependencies of the effect
    differs from the render before: a render which repeats the previous one
    fires nothing. While the path and the [addNotification] callback stay
    the same, the warnings fired are at most as many as the transitions
    into the unauthenticated state, a guard mounted in that state counting
    as having entered it. *)
Theorem notification_once_per_transition p k hs :
  stable p k hs ->
  (fired hs <= transitions hs)%nat
  /\ (forall prev h,
        (length (snd (ProtectedRoute tt prev h)) <= 1)%nat
        /\ snd (ProtectedRoute tt (Some (deps_of h)) h) = []
        /\ (snd (ProtectedRoute tt prev h) <> [] ->
            unauthenticated h = true /\ pathname h <> "/login"
            /\ prev <> Some (deps_of h))).
Proof.
  intros Hst. split.
  - apply (fired_from_le p k hs Hst None false). reflexivity.
  - intros prev h. cbn [ProtectedRoute snd].
    split; [apply useEffect_length|]. split; [|apply useEffect_fires].
    unfold useEffect. destruct (decide _); [reflexivity|contradiction].
Qed.

Lemma notification_once_per_transition_witness :
  let hs := [mkHooks (mkAuthContext false true false) "/dashboard" 0;
             signed_out "/dashboard" 0; signed_out "/dashboard" 0] in
  stable "/dashboard" 0 hs
  /\ fired hs = 1%nat
  /\ (fired hs <= transitions hs)%nat.
Proof.
  intros hs.
  assert (H : stable "/dashboard" 0 hs).
  { unfold stable, hs. repeat constructor. }
  split; [exact H|]. split; [reflexivity|].
  exact (proj1 (notification_once_per_transition "/dashboard" 0 hs H)).
Defined.

End ProtectedRouteSpec.

(** ** Further properties of the client *)

Module AuthServiceLaws.
Import Js AuthService AuthServiceSpec.

(** *** The methods as equations *)

Lemma login_eq this email senha w :
  login this email senha w
  = let w1 := login_sent this email senha w in
    match server w (login_request this email senha) with
    | Rejects e => login_catch e w1
    | Resolves r =>
        let w2 :=
          emit (EvConsole LogLevel
                  [CStr "Status da resposta:"; CNum (status r)]) w1 in
        if ok r then
          match body r with
          | BodyJson v => (Normal v, w2)
          | BodyUnparsable e => login_catch e w2
          end
        else
          login_catch (thrown r)
            (if session_invalidating (status r) then invalidated w2 else w2)
    end.
Proof.
  unfold login, try_catch, bind, console_log, console_error, fetch,
    login_catch, login_sent.
  cbn. fold (login_request this email senha).
  destruct (server w (login_request this email senha)) as [e|r]; cbn.
  - destruct (instanceof_TypeError e && includes "fetch" (err_message e));
      reflexivity.
  - destruct (ok r) eqn:Hok.
    + rewrite handleApiResponse_ok by assumption.
      unfold response_json. destruct (body r) as [v|e]; cbn; [reflexivity|].
      destruct (instanceof_TypeError e && includes "fetch" (err_message e));
        reflexivity.
    + rewrite handleApiResponse_failing by assumption.
      destruct (instanceof_TypeError (thrown r)
                && includes "fetch" (err_message (thrown r)));
        reflexivity.
Qed.

Lemma getProfile_eq this profileId w :
  getProfile this profileId w
  = let w1 := emit (EvFetch (stored_profile_request this profileId w)) w in
    match server w (stored_profile_request this profileId w) with
    | Rejects e => (Throw e, w1)
    | Resolves r =>
        if ok r then
          match body r with
          | BodyJson v => (Normal v, w1)
          | BodyUnparsable e => (Throw e, w1)
          end
        else
          (Throw (thrown r),
           if session_invalidating (status r) then invalidated w1 else w1)
    end.
Proof.
  unfold getProfile, try_catch, bind, localStorage_getItem, fetch.
  fold (profile_request this profileId
          ("Bearer " ++ template_of_nullable (localStorage w !! "admin_token"))).
  fold (stored_profile_request this profileId w).
  destruct (server w (stored_profile_request this profileId w)) as [e|r];
    [reflexivity|].
  destruct (ok r) eqn:Hok.
  - rewrite handleApiResponse_ok by assumption.
    unfold response_json. destruct (body r); reflexivity.
  - rewrite handleApiResponse_failing by assumption. reflexivity.
Qed.

Lemma checkServerHealth_eq this w :
  checkServerHealth this w
  = match server w (health_request this) with
    | Rejects e =>
        (Normal false,
         emit (EvConsole ErrorLevel
                 [CStr "Servidor não está respondendo:"; CErr e])
           (emit (EvFetch (health_request this)) w))
    | Resolves r => (Normal (ok r), emit (EvFetch (health_request this)) w)
    end.
Proof.
  unfold checkServerHealth, try_catch, bind, fetch, console_error.
  fold (health_request this).
  destruct (server w (health_request this)); reflexivity.
Qed.

(** *** Substrings *)

Lemma append_String x a c : String x a ++ c = String x (a ++ c).
Proof. reflexivity. Qed.

Lemma append_EmptyString c : EmptyString ++ c = c.
Proof. reflexivity. Qed.

Lemma prefix_spec a b :
  String.prefix a b = true <-> exists c, b = a ++ c.
Proof.
  revert b. induction a as [|x a IH]; intros [|y b]; cbn.
  - split; [intros _; now exists EmptyString|reflexivity].
  - split; [intros _; now exists (String y b)|reflexivity].
  - split; [discriminate|intros (c & Hc); discriminate].
  - destruct (Ascii.ascii_dec x y) as [->|Hne].
    + rewrite IH. split; intros (c & Hc); exists c;
        rewrite append_String in *; congruence.
    + split; [discriminate|]. intros (c & Hc).
      rewrite append_String in Hc. congruence.
Qed.

(** [includes] holds exactly of the strings which contain the needle. *)
Lemma includes_spec needle hay :
  includes needle hay = true
  <-> exists pre post, hay = pre ++ needle ++ post.
Proof.
  induction hay as [|x hay IH]; cbn [includes].
  - rewrite orb_false_r, prefix_spec. split.
    + intros (c & Hc). now exists EmptyString, c.
    + intros (pre & post & H). destruct pre; [now exists post|discriminate].
  - rewrite orb_true_iff, prefix_spec, IH. split.
    + intros [(c & Hc) | (pre & post & ->)].
      * now exists EmptyString, c.
      * now exists (String x pre), post.
    + intros (pre & post & H). destruct pre as [|y pre].
      * left. now exists post.
      * right. exists pre, post. rewrite append_String in H. congruence.
Qed.

(** *** The shared handler on a body that parses *)

(** When the body of a failing response parses to an object whose
    [message] is a string, the handler throws an [Error] carrying that
    string, whatever the status and its table entry; an empty string gives
    the generic message. *)
Theorem handleApiResponse_server_message r props s w :
  ok r = false ->
  body r = BodyJson (JObj props) ->
  assoc "message" props = Some (JStr s) ->
  fst (handleApiResponse r w)
  = Throw (new_Error (if String.eqb s EmptyString then generic_message
                      else s)).
Proof.
  intros Hok Hb Hm. rewrite handleApiResponse_failing by assumption.
  cbn [fst]. unfold thrown, api_error. rewrite Hb. cbn. rewrite Hm. cbn.
  now destruct (String.eqb s EmptyString).
Qed.

Lemma handleApiResponse_server_message_witness :
  let props := [("status", JNum "404"); ("message", JStr "Perfil inexistente")] in
  let r := mkResponse 404 (BodyJson (JObj props)) in
  ok r = false
  /\ fst (handleApiResponse r (browser (Resolves r)))
     = Throw (new_Error "Perfil inexistente").
Proof.
  intros props r.
  assert (Hok : ok r = false) by reflexivity.
  split; [exact Hok|].
  exact (handleApiResponse_server_message r props "Perfil inexistente"
           (browser (Resolves r)) Hok eq_refl eq_refl).
Defined.

(** When the body of a failing response parses to a value other than
    [null] which has no [message] property (an object without it, an array,
    a string, a number, a boolean), the handler throws the generic message:
    the table entry of the status is used only when the body does not
    parse. *)
Theorem handleApiResponse_no_message r v w :
  ok r = false ->
  body r = BodyJson v ->
  v <> JNull ->
  (forall props, v = JObj props -> assoc "message" props = None) ->
  fst (handleApiResponse r w) = Throw (new_Error generic_message).
Proof.
  intros Hok Hb Hnull Hprops. rewrite handleApiResponse_failing by assumption.
  cbn [fst]. unfold thrown, api_error. rewrite Hb.
  destruct v as [|b|n|s|items|props]; try reflexivity; [contradiction|].
  cbn. now rewrite (Hprops props eq_refl).
Qed.

Lemma handleApiResponse_no_message_witness :
  let r := mkResponse 404 (BodyJson (JObj [("error", JStr "not found")])) in
  ok r = false
  /\ fst (handleApiResponse r (browser (Resolves r)))
     = Throw (new_Error generic_message)
  /\ getErrorMessageByStatus 404 <> generic_message.
Proof.
  intros r.
  assert (Hok : ok r = false) by reflexivity.
  split; [exact Hok|]. split; [|discriminate].
  apply (handleApiResponse_no_message r _ (browser (Resolves r)) Hok eq_refl).
  - discriminate.
  - intros props [= <-]. reflexivity.
Defined.

(** When the body of a failing response parses to [null], reading its
    [message] fails: what the handler throws is the [TypeError] of that
    read, not an [Error] with a resolved message. The token and the
    location have been dealt with before, as for any failing response. *)
Theorem handleApiResponse_null_body r w :
  ok r = false ->
  body r = BodyJson JNull ->
  exists e,
    handleApiResponse r w
    = (Throw e, if session_invalidating (status r) then invalidated w else w)
    /\ err_class e = TypeError.
Proof.
  intros Hok Hb. rewrite handleApiResponse_failing by assumption.
  exists (thrown r). split; [reflexivity|].
  unfold thrown, api_error. now rewrite Hb.
Qed.

Lemma handleApiResponse_null_body_witness :
  let r := mkResponse 401 (BodyJson JNull) in
  let w := browser (Resolves r) in
  ok r = false
  /\ exists e,
       handleApiResponse r w = (Throw e, invalidated w)
       /\ err_class e = TypeError.
Proof.
  intros r w.
  assert (Hok : ok r = false) by reflexivity.
  split; [exact Hok|].
  exact (handleApiResponse_null_body r w Hok eq_refl).
Defined.

(** *** [login] *)

(** A login answered with a successful status and a body which parses
    returns the parsed body. The token it may carry is not stored: storage
    and location are as before, and the only effects are the request and
    three console lines. *)
Theorem login_success this email senha w r v :
  server w (login_request this email senha) = Resolves r ->
  ok r = true ->
  body r = BodyJson v ->
  exists w',
    login this email senha w = (Normal v, w')
    /\ localStorage w' = localStorage w
    /\ location_href w' = location_href w
    /\ trace w'
       = (trace w
          ++ [EvConsole LogLevel
                [CStr "Tentando fazer login para:"; CStr email];
              EvConsole LogLevel
                [CStr "URL da API:"; CStr (baseURL this ++ "/auth/login")];
              EvFetch (login_request this email senha);
              EvConsole LogLevel
                [CStr "Status da resposta:"; CNum (status r)]])%list.
Proof.
  intros Hs Hok Hb. rewrite login_eq. cbn zeta. rewrite Hs, Hok, Hb.
  eexists. split; [reflexivity|]. unfold login_sent, emit. cbn.
  repeat split. rewrite <- !app_assoc. reflexivity.
Qed.

Lemma login_success_witness :
  let this := new_AuthService None in
  let v := JObj [("admin", JObj [("id", JNum "1")]); ("token", JStr "abc")] in
  let r := mkResponse 200 (BodyJson v) in
  let w := mkWorld ∅ "/Admin/login" (fun _ => Resolves r) [] in
  server w (login_request this "a@b.c" "pw") = Resolves r
  /\ exists w',
       login this "a@b.c" "pw" w = (Normal v, w')
       /\ localStorage w' !! "admin_token" = None.
Proof.
  intros this v r w.
  assert (Hs : server w (login_request this "a@b.c" "pw") = Resolves r)
    by reflexivity.
  split; [exact Hs|].
  destruct (login_success this "a@b.c" "pw" w r v Hs eq_refl eq_refl)
    as (w' & H1 & H2 & _).
  exists w'. split; [exact H1|]. rewrite H2. reflexivity.
Defined.

(** Whatever the shared handler throws for the answer to a login, [login]
    throws the same, unless it is a [TypeError] whose message contains the
    word fetch: an [Error] built from the server's message passes the
    [catch] of [login] untouched even when that message contains the
    word. *)
Theorem login_http_error this email senha w r e :
  server w (login_request this email senha) = Resolves r ->
  fst (handleApiResponse r w) = Throw e ->
  ~ (err_class e = TypeError
     /\ exists pre post, err_message e = pre ++ "fetch" ++ post) ->
  fst (login this email senha w) = Throw e.
Proof.
  intros Hs He Hn.
  destruct (ok r) eqn:Hok.
  { rewrite handleApiResponse_ok in He by assumption. discriminate. }
  rewrite handleApiResponse_failing in He by assumption.
  cbn [fst] in He. injection He as He.
  rewrite login_eq. cbn zeta. rewrite Hs, Hok, He.
  unfold login_catch, instanceof_TypeError. cbn [fst].
  destruct (bool_decide (err_class e = TypeError)
            && includes "fetch" (err_message e)) eqn:E; [|reflexivity].
  exfalso. apply Hn. apply andb_true_iff in E as [Hc Hm].
  split; [now apply bool_decide_eq_true in Hc|now apply includes_spec].
Qed.

Lemma login_http_error_witness :
  let this := new_AuthService None in
  let r := mkResponse 500
             (BodyJson (JObj [("message", JStr "upstream fetch failed")])) in
  let w := browser (Resolves r) in
  let e := new_Error "upstream fetch failed" in
  server w (login_request this "a@b.c" "pw") = Resolves r
  /\ fst (handleApiResponse r w) = Throw e
  /\ fst (login this "a@b.c" "pw" w) = Throw e.
Proof.
  intros this r w e.
  assert (Hs : server w (login_request this "a@b.c" "pw") = Resolves r)
    by reflexivity.
  assert (He : fst (handleApiResponse r w) = Throw e) by reflexivity.
  split; [exact Hs|]. split; [exact He|].
  apply (login_http_error this "a@b.c" "pw" w r e Hs He).
  intros [Hc _]. discriminate Hc.
Defined.

(** A message which is an object with a [toString] property of its own
    cannot be converted: the handler throws the [TypeError] of the
    conversion, and [login] throws it on. *)
Example login_unprintable_message :
  let this := new_AuthService None in
  let r := mkResponse 500
             (BodyJson (JObj [("message", JObj [("toString", JNum "1")])])) in
  let w := browser (Resolves r) in
  fst (handleApiResponse r w) = Throw cannot_convert
  /\ fst (login this "a@b.c" "pw" w) = Throw cannot_convert.
Proof. split; reflexivity. Qed.

(** When [fetch] is rejected, [login] throws the connectivity message if
    the rejection is a [TypeError] whose message contains the word fetch
    somewhere, and the rejection itself if not. Either way it logs the
    rejection and leaves storage and location alone. *)
Theorem login_rejected this email senha w e :
  server w (login_request this email senha) = Rejects e ->
  (err_class e = TypeError
   /\ (exists pre post, err_message e = pre ++ "fetch" ++ post) ->
   fst (login this email senha w) = Throw (new_Error connectivity_message))
  /\ (~ (err_class e = TypeError
         /\ exists pre post, err_message e = pre ++ "fetch" ++ post) ->
      fst (login this email senha w) = Throw e)
  /\ localStorage (snd (login this email senha w)) = localStorage w
  /\ location_href (snd (login this email senha w)) = location_href w
  /\ last (trace (snd (login this email senha w)))
     = Some (EvConsole ErrorLevel
               [CStr "Erro no authService.login:"; CErr e]).
Proof.
  intros Hs. rewrite login_eq. cbn zeta. rewrite Hs.
  unfold login_catch, instanceof_TypeError. cbn [fst snd].
  repeat split.
  - intros (Hc & Hm). apply includes_spec in Hm.
    now rewrite Hm, bool_decide_eq_true_2.
  - intros Hn.
    destruct (bool_decide (err_class e = TypeError)
              && includes "fetch" (err_message e)) eqn:E; [|reflexivity].
    exfalso. apply Hn. apply andb_true_iff in E as [Hc Hm].
    split; [now apply bool_decide_eq_true in Hc|now apply includes_spec].
  - unfold emit. cbn. apply last_snoc.
Qed.

Lemma login_rejected_witness :
  let this := new_AuthService None in
  let e := mkJsError TypeError "NetworkError when attempting to fetch resource." in
  let w := browser (Rejects e) in
  server w (login_request this "a@b.c" "pw") = Rejects e
  /\ fst (login this "a@b.c" "pw" w) = Throw (new_Error connectivity_message).
Proof.
  intros this e w.
  assert (Hs : server w (login_request this "a@b.c" "pw") = Rejects e)
    by reflexivity.
  split; [exact Hs|].
  apply (proj1 (login_rejected this "a@b.c" "pw" w e Hs)).
  split; [reflexivity|].
  exists "NetworkError when attempting to ", " resource.". reflexivity.
Defined.

(** *** [getProfile] and [validateToken] *)

(** When [fetch] is rejected, [getProfile] throws the rejection itself (no
    connectivity message, unlike [login]) and keeps the stored token and
    the location (unlike [validateToken]); the request is its only
    effect. *)
Theorem getProfile_rejected this profileId w e :
  server w (stored_profile_request this profileId w) = Rejects e ->
  getProfile this profileId w
  = (Throw e, emit (EvFetch (stored_profile_request this profileId w)) w).
Proof. intros Hs. rewrite getProfile_eq. cbn zeta. now rewrite Hs. Qed.

Lemma getProfile_rejected_witness :
  let this := new_AuthService None in
  let e := mkJsError TypeError "Failed to fetch" in
  let w := browser (Rejects e) in
  server w (stored_profile_request this 3 w) = Rejects e
  /\ fst (getProfile this 3 w) = Throw e
  /\ localStorage (snd (getProfile this 3 w)) !! "admin_token" = Some "tok".
Proof.
  intros this e w.
  assert (Hs : server w (stored_profile_request this 3 w) = Rejects e)
    by reflexivity.
  split; [exact Hs|].
  rewrite (getProfile_rejected this 3 w e Hs). split; reflexivity.
Defined.

(** With a token in storage, [getProfile] sends it as
    [Authorization: Bearer <token>] to [<baseURL>/profiles/<id>], with no
    method, body or other header; the request is the first effect. *)
Theorem getProfile_with_token this profileId w t :
  localStorage w !! "admin_token" = Some t ->
  exists evs,
    trace (snd (getProfile this profileId w))
    = (trace w
       ++ EvFetch (mkRequest
                     (baseURL this ++ "/profiles/" ++ pretty profileId)
                     None [("Authorization", ("Bearer " ++ t)%string)]
                     None None)
       :: evs)%list.
Proof.
  intros Ht. rewrite getProfile_eq. cbn zeta.
  unfold stored_profile_request, profile_request. rewrite Ht.
  cbn [template_of_nullable].
  match goal with
  | |- context [server w ?q] => destruct (server w q) as [e|r]
  end.
  - exists []. trace_eq.
  - destruct (ok r); [destruct (body r); exists []; trace_eq|].
    destruct (session_invalidating (status r)).
    + exists [EvRemoveItem "admin_token"; EvSetHref "/Admin/login"].
      trace_eq.
    + exists []. trace_eq.
Qed.

Lemma getProfile_with_token_witness :
  let this := new_AuthService (Some "https://api.example.com") in
  let w := browser (Resolves (mkResponse 200 (BodyJson (JObj [])))) in
  localStorage w !! "admin_token" = Some "tok"
  /\ exists evs,
       trace (snd (getProfile this 12 w))
       = EvFetch (mkRequest "https://api.example.com/profiles/12" None
                    [("Authorization", "Bearer tok")] None None)
         :: evs.
Proof.
  intros this w.
  assert (Ht : localStorage w !! "admin_token" = Some "tok") by reflexivity.
  split; [exact Ht|].
  destruct (getProfile_with_token this 12 w "tok" Ht) as (evs & H).
  exists evs. exact H.
Defined.

(** A validation answered with a successful status and a body which parses
    returns the parsed body and changes nothing in the browser but for the
    request it sent. *)
Theorem validateToken_success this token w r v :
  server w (validate_request this token) = Resolves r ->
  ok r = true ->
  body r = BodyJson v ->
  validateToken this token w
  = (Normal v, emit (EvFetch (validate_request this token)) w).
Proof.
  intros Hs Hok Hb. rewrite validateToken_eq. cbn zeta.
  now rewrite Hs, Hok, Hb.
Qed.

Lemma validateToken_success_witness :
  let this := new_AuthService None in
  let v := JObj [("id", JNum "1"); ("nome", JStr "Ana")] in
  let r := mkResponse 200 (BodyJson v) in
  let w := browser (Resolves r) in
  server w (validate_request this "tok") = Resolves r
  /\ fst (validateToken this "tok" w) = Normal v
  /\ localStorage (snd (validateToken this "tok" w)) !! "admin_token"
     = Some "tok".
Proof.
  intros this v r w.
  assert (Hs : server w (validate_request this "tok") = Resolves r)
    by reflexivity.
  split; [exact Hs|].
  rewrite (validateToken_success this "tok" w r v Hs eq_refl eq_refl).
  split; reflexivity.
Defined.

(** A validation which fails without a 401 or 403 answer (no response at
    all, or any other status) deletes the token but leaves the location
    alone: the page is sent to the login route by 401 and 403 only. *)
Theorem validateToken_failure_no_redirect this token w :
  validate_failure (server w (validate_request this token)) ->
  (forall r, server w (validate_request this token) = Resolves r ->
             status r <> 401 /\ status r <> 403) ->
  localStorage (snd (validateToken this token w)) !! "admin_token" = None
  /\ location_href (snd (validateToken this token w)) = location_href w
  /\ forall href, EvSetHref href ∉ trace w ->
                  EvSetHref href ∉ trace (snd (validateToken this token w)).
Proof.
  intros Hfail Hst. rewrite validateToken_eq. cbn zeta.
  destruct (server w (validate_request this token)) as [e|r] eqn:Hs.
  - cbn. split; [apply lookup_delete_eq|]. split; [reflexivity|].
    intros href Hn. rewrite !not_elem_of_app, !not_elem_of_cons.
    repeat split; try discriminate; try assumption; apply not_elem_of_nil.
  - destruct (Hst r eq_refl) as [H1 H3].
    assert (Hinv : session_invalidating (status r) = false).
    { unfold session_invalidating. apply orb_false_iff.
      split; apply Z.eqb_neq; assumption. }
    rewrite Hinv.
    inversion Hfail as [| r' Hok | r' e Hok Hb]; subst; rewrite Hok;
      [|rewrite Hb]; cbn;
      (split; [apply lookup_delete_eq|]); (split; [reflexivity|]);
      intros href Hn; rewrite !not_elem_of_app, !not_elem_of_cons;
      repeat split; try discriminate; try assumption; apply not_elem_of_nil.
Qed.

Lemma validateToken_failure_no_redirect_witness :
  let this := new_AuthService None in
  let w := browser (Resolves (mkResponse 500 unparsable)) in
  validate_failure (server w (validate_request this "tok"))
  /\ localStorage (snd (validateToken this "tok" w)) !! "admin_token" = None
  /\ location_href (snd (validateToken this "tok" w)) = "/Admin/dashboard".
Proof.
  intros this w.
  assert (Hf : validate_failure (server w (validate_request this "tok")))
    by (apply http_error; reflexivity).
  split; [exact Hf|].
  assert (Hst : forall r, server w (validate_request this "tok") = Resolves r
                          -> status r <> 401 /\ status r <> 403).
  { intros r [= <-]. cbn. lia. }
  destruct (validateToken_failure_no_redirect this "tok" w Hf Hst)
    as (H1 & H2 & _).
  split; assumption.
Defined.

(** *** All the methods *)

(** Unfolds a call to the equation of its method and splits on what the
    server answered. *)
Ltac call_cases c w :=
  destruct c; cbn [after request_of handled];
  rewrite ?login_eq, ?validateToken_eq, ?logout_eq, ?getProfile_eq,
    ?checkServerHealth_eq;
  cbn zeta; unfold login_catch;
  repeat match goal with
         | |- context [match server w ?q with _ => _ end] =>
             let r := fresh "r" in
             let e := fresh "e" in
             let Hs := fresh "Hs" in
             destruct (server w q) as [e|r] eqn:Hs
         | |- context [if ok ?r then _ else _] =>
             let Hok := fresh "Hok" in destruct (ok r) eqn:Hok
         | |- context [match body ?r with _ => _ end] =>
             let Hb := fresh "Hb" in destruct (body r) eqn:Hb
         | |- context [if session_invalidating ?s then _ else _] =>
             let Hi := fresh "Hi" in destruct (session_invalidating s) eqn:Hi
         end;
  cbn [fst snd].

(** No method writes to storage: after any call the storage is what it was,
    or what it was without the token. Every other key keeps its value, and
    the token is never set or replaced, not even by a successful login. *)
Theorem storage_only_loses_token this c w :
  (localStorage (after this c w) = localStorage w
   \/ localStorage (after this c w) = delete "admin_token" (localStorage w))
  /\ (forall k, k <> "admin_token" ->
                localStorage (after this c w) !! k = localStorage w !! k)
  /\ (localStorage (after this c w) !! "admin_token" = None
      \/ localStorage (after this c w) !! "admin_token"
         = localStorage w !! "admin_token").
Proof.
  assert (H : localStorage (after this c w) = localStorage w
              \/ localStorage (after this c w)
                 = delete "admin_token" (localStorage w)).
  { call_cases c w; cbn; rewrite ?delete_delete_eq; auto. }
  split; [exact H|]. split.
  - intros k Hk. destruct H as [-> | ->]; [reflexivity|].
    now apply lookup_delete_ne.
  - destruct H as [-> | ->]; [now right|]. left. apply lookup_delete_eq.
Qed.

Lemma session_invalidating_spec s :
  session_invalidating s = true <-> s = 401 \/ s = 403.
Proof.
  unfold session_invalidating. rewrite orb_true_iff, !Z.eqb_eq. reflexivity.
Qed.

(** The location changes only when a login, a validation or a profile
    request was answered with status 401 or 403; it is then the login
    route. [logout] and the health probe never move the page, whatever the
    server answers them. *)
Theorem redirect_only_on_unauthorized this c w :
  location_href (after this c w) <> location_href w ->
  location_href (after this c w) = "/Admin/login"
  /\ handled c = true
  /\ exists req r,
       request_of this c w = Some req
       /\ server w req = Resolves r
       /\ (status r = 401 \/ status r = 403).
Proof.
  call_cases c w; cbn; intros Hne; try contradiction;
    (split; [reflexivity|]); (split; [reflexivity|]);
    eexists; eexists; (split; [reflexivity|]); (split; [eassumption|]);
    now apply session_invalidating_spec.
Qed.

Lemma redirect_only_on_unauthorized_witness :
  let this := new_AuthService None in
  let c := CallGetProfile 5 in
  let w := browser (Resolves (mkResponse 403 unparsable)) in
  location_href (after this c w) <> location_href w
  /\ location_href (after this c w) = "/Admin/login".
Proof.
  intros this c w.
  assert (H : location_href (after this c w) <> location_href w)
    by discriminate.
  split; [exact H|].
  exact (proj1 (redirect_only_on_unauthorized this c w H)).
Defined.

(** Conversely, a 401 or 403 answer to a login, a validation or a profile
    request always leaves the browser without token and on the login
    route. *)
Theorem unauthorized_invalidates this c w req r :
  handled c = true ->
  request_of this c w = Some req ->
  server w req = Resolves r ->
  status r = 401 \/ status r = 403 ->
  localStorage (after this c w) !! "admin_token" = None
  /\ location_href (after this c w) = "/Admin/login".
Proof.
  intros Hh Hreq Hs Hst.
  apply session_invalidating_spec in Hst.
  pose proof (invalidating_not_ok r Hst) as Hok.
  destruct c; try discriminate Hh; cbn [after request_of] in *;
    injection Hreq as <-;
    rewrite ?login_eq, ?validateToken_eq, ?getProfile_eq; cbn zeta;
    rewrite Hs, Hok, Hst; unfold login_catch; cbn;
    (split; [|reflexivity]); rewrite ?delete_delete_eq;
    apply lookup_delete_eq.
Qed.

Lemma unauthorized_invalidates_witness :
  let this := new_AuthService None in
  let r := mkResponse 401
             (BodyJson (JObj [("message", JStr "Senha incorreta")])) in
  let w := browser (Resolves r) in
  let c := CallLogin "a@b.c" "wrong" in
  handled c = true
  /\ localStorage (after this c w) !! "admin_token" = None
  /\ location_href (after this c w) = "/Admin/login".
Proof.
  intros this r w c.
  assert (Hh : handled c = true) by reflexivity.
  split; [exact Hh|].
  apply (unauthorized_invalidates this c w (login_request this "a@b.c" "wrong")
           r Hh eq_refl eq_refl).
  left. reflexivity.
Defined.

Lemma requests_since_app (l evs : list Event) :
  requests_since (length l) (l ++ evs)
  = filter (fun ev => is_fetch ev = true) evs.
Proof. unfold requests_since. now rewrite drop_app_length. Qed.

(** Every call sends its one request exactly once, whatever the server
    answers: nothing is retried. [logout] sends none when storage holds no
    token or an empty one. *)
Theorem one_request_per_call this c w :
  requests_since (length (trace w)) (trace (after this c w))
  = match request_of this c w with
    | Some req => [EvFetch req]
    | None => []
    end.
Proof.
  destruct c; cbn [after request_of];
    rewrite ?login_eq, ?validateToken_eq, ?logout_eq, ?getProfile_eq,
      ?checkServerHealth_eq; cbn zeta; unfold login_catch.
  - destruct (server w (login_request this email senha)) as [e|r];
      [|destruct (ok r); [destruct (body r)|
                          destruct (session_invalidating (status r))]];
      unfold login_sent, invalidated, emit; cbn; rewrite <- ?app_assoc;
      cbn; apply requests_since_app.
  - destruct (server w (validate_request this token)) as [e|r];
      [|destruct (ok r); [destruct (body r)|
                          destruct (session_invalidating (status r))]];
      unfold cleared, invalidated, emit; cbn; rewrite <- ?app_assoc;
      cbn; apply requests_since_app.
  - cbn. rewrite requests_since_app. unfold logout_attempt.
    destruct (localStorage w !! "admin_token") as [t|]; [|reflexivity].
    destruct (String.eqb t EmptyString); [reflexivity|].
    destruct (server w (logout_request this t)); reflexivity.
  - destruct (server w (stored_profile_request this profileId w)) as [e|r];
      [|destruct (ok r); [destruct (body r)|
                          destruct (session_invalidating (status r))]];
      unfold invalidated, emit; cbn; rewrite <- ?app_assoc;
      cbn; apply requests_since_app.
  - destruct (server w (health_request this)) as [e|r];
      unfold emit; cbn; rewrite <- ?app_assoc; cbn;
      apply requests_since_app.
Qed.

(** *** After [logout] *)

Lemma logout_token_absent this w :
  localStorage (snd (logout this w)) !! "admin_token" = None.
Proof. rewrite logout_eq. apply lookup_delete_eq. Qed.

(** A second [logout] right after a first one sends no request: it only
    removes the (absent) token again and leaves storage and location as the
    first call left them. *)
Theorem logout_twice this w :
  logout this (snd (logout this w))
  = (Normal tt, emit (EvRemoveItem "admin_token") (snd (logout this w))).
Proof.
  rewrite (logout_eq this (snd (logout this w))).
  unfold logout_attempt. rewrite logout_token_absent.
  rewrite logout_eq. cbn. unfold emit. cbn.
  now rewrite delete_delete_eq.
Qed.

(** A [getProfile] right after a [logout] still sends its request, now with
    [Authorization: Bearer null]. *)
Theorem getProfile_after_logout this profileId w :
  exists evs,
    trace (snd (getProfile this profileId (snd (logout this w))))
    = (trace (snd (logout this w))
       ++ EvFetch (mkRequest
                     (baseURL this ++ "/profiles/" ++ pretty profileId)
                     None [("Authorization", "Bearer null")] None None)
       :: evs)%list.
Proof.
  set (w1 := snd (logout this w)).
  assert (Hreq : stored_profile_request this profileId w1
                 = mkRequest
                     (baseURL this ++ "/profiles/" ++ pretty profileId)
                     None [("Authorization", "Bearer null")] None None).
  { unfold stored_profile_request, w1. now rewrite logout_token_absent. }
  rewrite getProfile_eq. cbn zeta. rewrite Hreq.
  match goal with
  | |- context [server w1 ?q] => destruct (server w1 q) as [e|r]
  end.
  - exists []. trace_eq.
  - destruct (ok r); [destruct (body r); exists []; trace_eq|].
    destruct (session_invalidating (status r)).
    + exists [EvRemoveItem "admin_token"; EvSetHref "/Admin/login"].
      trace_eq.
    + exists []. trace_eq.
Qed.

End AuthServiceLaws.

(** ** Further properties of the route guard *)

Module ProtectedRouteLaws.
Import ProtectedRoute ProtectedRouteSpec.

(** The guard returns its children exactly when the session is loaded,
    free of server error and authenticated; in every other state what it
    returns contains no children. *)
Theorem children_iff_authenticated {C} (children : C) prev h :
  fst (ProtectedRoute children prev h) = Fragment children
  <-> loading (auth h) = false /\ serverError (auth h) = false
      /\ isAuthenticated (auth h) = true.
Proof.
  cbn [ProtectedRoute fst]. unfold element.
  destruct (loading (auth h)), (serverError (auth h)),
    (isAuthenticated (auth h)); cbn; split;
    try discriminate; try (intros (? & ? & ?); discriminate); auto.
Qed.

(** The guard never lets go of a notification without redirecting: when a
    render fires, what fires is the one session-expired warning and the
    element returned is the redirect to the login route. *)
Theorem notification_with_redirect {C} (children : C) prev h :
  snd (ProtectedRoute children prev h) <> [] ->
  snd (ProtectedRoute children prev h) = [warning]
  /\ fst (ProtectedRoute children prev h) = Navigate "/login" true.
Proof.
  cbn [ProtectedRoute fst snd]. intros Hne.
  destruct (useEffect_fires prev h Hne) as (Hu & Hp & Hprev).
  destruct (unauthenticated_flags h Hu) as (Hl & Ha & Hs).
  split.
  - unfold useEffect in *. unfold effect in *. rewrite Hl, Ha, Hs in *. cbn in *.
    destruct (String.eqb (pathname h) "/login");
      destruct prev as [d|]; try destruct (decide _);
      cbn in *; try contradiction; reflexivity.
  - unfold element. now rewrite Hl, Hs, Ha.
Qed.

Lemma notification_with_redirect_witness :
  let h := signed_out "/dashboard" 0 in
  snd (ProtectedRoute tt None h) <> []
  /\ snd (ProtectedRoute tt None h) = [warning]
  /\ fst (ProtectedRoute tt None h) = Navigate "/login" true.
Proof.
  intros h.
  assert (H : snd (ProtectedRoute tt None h) <> []) by discriminate.
  split; [exact H|]. exact (notification_with_redirect tt None h H).
Defined.

Lemma useEffect_runs prev h :
  unauthenticated h = true ->
  pathname h <> "/login" ->
  prev <> Some (deps_of h) ->
  useEffect prev (deps_of h) (effect h) = [warning].
Proof.
  intros Hu Hp Hprev.
  assert (He : effect h = [warning]).
  { unfold effect. fold (unauthenticated h). rewrite Hu.
    destruct (String.eqb_spec (pathname h) "/login"); [contradiction|].
    reflexivity. }
  unfold useEffect. rewrite He.
  destruct prev as [d|]; [|reflexivity].
  destruct (decide (d = deps_of h)) as [->|]; [contradiction|reflexivity].
Qed.

(** The warning does fire whenever the session is unauthenticated away
    from the login route and the guard has just mounted or a dependency
    changed, whether or not the session was ever authenticated before. *)
Theorem notification_fires {C} (children : C) prev h :
  unauthenticated h = true ->
  pathname h <> "/login" ->
  prev <> Some (deps_of h) ->
  snd (ProtectedRoute children prev h) = [warning].
Proof. intros Hu Hp Hprev. now apply useEffect_runs. Qed.

Lemma notification_fires_witness :
  let h0 := mkHooks (mkAuthContext true false false) "/dashboard" 0 in
  let h := signed_out "/dashboard" 0 in
  unauthenticated h = true
  /\ snd (ProtectedRoute tt (Some (deps_of h0)) h) = [warning].
Proof.
  intros h0 h.
  assert (Hu : unauthenticated h = true) by reflexivity.
  split; [exact Hu|].
  apply (notification_fires tt (Some (deps_of h0)) h Hu); discriminate.
Defined.

Lemma fired_from_app prev hs h :
  fired_from prev (hs ++ [h])
  = (fired_from prev hs
     + length (useEffect (match last hs with
                          | Some h0 => Some (deps_of h0)
                          | None => prev
                          end) (deps_of h) (effect h)))%nat.
Proof.
  revert prev. induction hs as [|h1 hs IH]; intros prev.
  - rewrite app_nil_l, fired_from_cons. unfold fired_from. cbn. lia.
  - rewrite <- app_comm_cons, !fired_from_cons, IH.
    destruct hs as [|h2 hs]; [cbn; lia|].
    rewrite !last_cons_cons.
    destruct (last (h2 :: hs)) eqn:E; [lia|].
    now apply last_None in E.
Qed.

Lemma fired_from_loading prev hs :
  Forall (fun h => loading (auth h) = true) hs -> fired_from prev hs = 0%nat.
Proof.
  intros H. revert prev. induction H as [|h hs Hl _ IH]; intros prev.
  - reflexivity.
  - rewrite fired_from_cons, IH.
    assert (He : effect h = []) by (unfold effect; now rewrite Hl).
    unfold useEffect. rewrite He.
    destruct prev; [destruct (decide _)|]; reflexivity.
Qed.

(** A visitor who never had a session is warned that it expired: when the
    guard, on a path other than the login route, has rendered only loading
    states and the load ends unauthenticated, that render fires the
    warning, the first and only one so far. *)
Theorem warning_after_initial_load hs p k :
  Forall (fun h => loading (auth h) = true) hs ->
  p <> "/login" ->
  fired (hs ++ [signed_out p k]) = 1%nat.
Proof.
  intros Hl Hp. unfold fired. rewrite fired_from_app.
  rewrite (fired_from_loading None hs Hl).
  rewrite useEffect_runs; [reflexivity|reflexivity|exact Hp|].
  destruct (last hs) as [h0|] eqn:E; [|discriminate].
  assert (Hin : h0 ∈ hs).
  { apply last_Some in E as (l' & ->). apply elem_of_app. right.
    apply list_elem_of_singleton. reflexivity. }
  rewrite Forall_forall in Hl. specialize (Hl h0 Hin).
  intros [= ? Hload _ _ _]. cbn in Hload. congruence.
Qed.

Lemma warning_after_initial_load_witness :
  let hs := [mkHooks (mkAuthContext false true false) "/dashboard" 0;
             mkHooks (mkAuthContext false true false) "/dashboard" 0] in
  Forall (fun h => loading (auth h) = true) hs
  /\ fired (hs ++ [signed_out "/dashboard" 0]) = 1%nat.
Proof.
  intros hs.
  assert (Hl : Forall (fun h => loading (auth h) = true) hs)
    by (repeat constructor).
  split; [exact Hl|].
  apply (warning_after_initial_load hs "/dashboard" 0 Hl). discriminate.
Defined.

Lemma fired_after_bound hs :
  forall h0,
    (fired_from (Some (deps_of h0)) hs
     <= transitions_from (unauthenticated h0) hs
        + changes_from (Some (pathname h0, addNotification h0)) hs)%nat.
Proof.
  induction hs as [|h rest IH]; intros h0; [cbn; lia|].
  rewrite fired_from_cons. cbn [transitions_from changes_from].
  specialize (IH h).
  enough ((length (useEffect (Some (deps_of h0)) (deps_of h) (effect h))
           <= (if unauthenticated h && negb (unauthenticated h0)
               then 1 else 0)
              + (if decide ((pathname h0, addNotification h0)
                            = (pathname h, addNotification h))
                 then 0 else 1))%nat) by lia.
  destruct (useEffect (Some (deps_of h0)) (deps_of h) (effect h))
    as [|n l] eqn:E; [cbn; lia|].
  assert (Hne : useEffect (Some (deps_of h0)) (deps_of h) (effect h) <> [])
    by (rewrite E; discriminate).
  pose proof (useEffect_length (Some (deps_of h0)) h) as Hlen.
  rewrite E in Hlen.
  destruct (useEffect_fires _ h Hne) as (Hu & _ & Hprev).
  rewrite Hu. cbn [andb].
  destruct (unauthenticated h0) eqn:Hu0; [|cbn in *; lia].
  destruct (decide _) as [Heq|]; [|cbn in *; lia].
  exfalso. apply Hprev. f_equal.
  destruct (unauthenticated_flags h Hu) as (H1 & H2 & H3).
  destruct (unauthenticated_flags h0 Hu0) as (H4 & H5 & H6).
  unfold deps_of. congruence.
Qed.

(** Every warning is accounted for: over the renders of one mounted guard,
    the warnings fired are at most the transitions into the unauthenticated
    state plus the renders which came with another path or another
    [addNotification] callback than the render before. *)
Theorem fired_bound hs :
  (fired hs <= transitions hs + changes hs)%nat.
Proof.
  unfold fired, transitions, changes.
  destruct hs as [|h rest]; [cbn; lia|].
  rewrite fired_from_cons. cbn [transitions_from changes_from useEffect].
  pose proof (fired_after_bound rest h) as IH.
  rewrite effect_length.
  destruct (unauthenticated h); cbn [negb andb];
    [destruct (negb (String.eqb (pathname h) "/login"))|]; lia.
Qed.

(** Rendering again with the same hook values fires nothing: any number of
    identical renders fires what the first of them fired. *)
Theorem identical_renders_fire_once h n :
  fired (replicate (S n) h) = fired [h].
Proof.
  unfold fired. cbn [replicate]. rewrite !fired_from_cons.
  f_equal. change (fired_from (Some (deps_of h)) []) with 0%nat.
  induction n as [|n IH]; [reflexivity|].
  cbn [replicate]. rewrite fired_from_cons, IH.
  unfold useEffect. destruct (decide _); [reflexivity|contradiction].
Qed.

(** No warning without an unauthenticated render off the login route: a
    guard whose every render is loading, authenticated, in server error or
    on the login route fires nothing. *)
Theorem quiet_renders hs :
  Forall (fun h => unauthenticated h = false \/ pathname h = "/login") hs ->
  fired hs = 0%nat.
Proof.
  unfold fired. generalize (@None Deps). intros o H. revert o.
  induction H as [|h rest Hh _ IH]; intros o; [reflexivity|].
  rewrite fired_from_cons, IH.
  destruct (useEffect o (deps_of h) (effect h)) eqn:E; [reflexivity|].
  assert (Hne : useEffect o (deps_of h) (effect h) <> [])
    by (rewrite E; discriminate).
  destruct (useEffect_fires o h Hne) as (Hu & Hp & _).
  destruct Hh; [congruence|contradiction].
Qed.

Lemma quiet_renders_witness :
  let hs := [mkHooks (mkAuthContext false true false) "/login" 0;
             signed_out "/login" 0;
             mkHooks (mkAuthContext true false false) "/dashboard" 0] in
  Forall (fun h => unauthenticated h = false \/ pathname h = "/login") hs
  /\ fired hs = 0%nat.
Proof.
  intros hs.
  assert (H : Forall (fun h => unauthenticated h = false
                               \/ pathname h = "/login") hs).
  { unfold hs.
    apply Forall_cons_2; [left; reflexivity|].
    apply Forall_cons_2; [right; reflexivity|].
    apply Forall_cons_2; [left; reflexivity|].
    apply Forall_nil_2. }
  split; [exact H|]. exact (quiet_renders hs H).
Defined.

End ProtectedRouteLaws.
